(** * RSS Reader: a shallow embedding of [RSSReader.py]

    The program is a PyQt5 application made of two classes: [RssModel], the
    table model that backs the [QTableView], and [RssFrame], the window that
    owns the article list and the three slots [on_button_click], [on_click]
    and [on_double_click].

    The embedding keeps the Python object store explicit: the article list
    created by [RssFrame.__init__] is one list object that both
    [RssFrame.data] and [RssModel.arraydata] refer to, so [self.data.append]
    is visible through the model before [RssModel.update] is called.  Slots
    are computations in a state-and-exception monad; an exception leaves the
    mutations done so far in place, as in Python. *)

From Stdlib Require Import ZArith Lia Ascii.
From stdpp Require Import base option list gmap strings.

Local Open Scope Z_scope.

(** ** Python values and exceptions *)

Inductive exn : Set :=
  | KeyError
  | IndexError
  | TypeError
  | ValueError.

Inductive result (A : Type) : Type :=
  | Ok (a : A)
  | Raise (e : exn).
Arguments Ok {A} a.
Arguments Raise {A} e.

(** [l[i]] on a Python list: a negative index counts from the end, and an
    index outside [-len(l) .. len(l)-1] raises [IndexError]. *)
Definition getitem_list {A : Type} (l : list A) (i : Z) : result A :=
  let n := Z.of_nat (length l) in
  let j := if i <? 0 then i + n else i in
  if (j <? 0) || (n <=? j) then Raise IndexError
  else match l !! Z.to_nat j with
       | Some x => Ok x
       | None => Raise IndexError
       end.

(** [d[k]] on a dictionary: a missing key raises [KeyError]. *)
Definition getitem_dict (d : gmap string string) (k : string) : result string :=
  match d !! k with
  | Some v => Ok v
  | None => Raise KeyError
  end.

(** [fmt % s] for a single string argument [s].  Only the conversions the
    program uses are interpreted: [%s] consumes the argument, [%%] is a
    literal percent sign.  The argument must be consumed exactly once,
    otherwise Python raises [TypeError]; a percent sign followed by anything
    else, or by nothing, is rejected with [ValueError]. *)
Fixpoint percent_format (fmt : string) (arg : option string) : result string :=
  match fmt with
  | EmptyString =>
      match arg with
      | None => Ok EmptyString
      | Some _ => Raise TypeError
      end
  | String "%"%char (String "s"%char rest) =>
      match arg with
      | Some s =>
          match percent_format rest None with
          | Ok out => Ok (s +:+ out)
          | Raise e => Raise e
          end
      | None => Raise TypeError
      end
  | String "%"%char (String "%"%char rest) =>
      match percent_format rest arg with
      | Ok out => Ok (String "%"%char out)
      | Raise e => Raise e
      end
  | String "%"%char _ => Raise ValueError
  | String c rest =>
      match percent_format rest arg with
      | Ok out => Ok (String c out)
      | Raise e => Raise e
      end
  end.

(** ** Qt values *)

(** A [QModelIndex] carries a row, a column and the model it belongs to.
    [QModelIndex()] is the invalid index: row and column [-1], no model. *)
Record QModelIndex : Set := mkIndex {
  row : Z;
  column : Z;
  has_model : bool
}.

Definition isValid (index : QModelIndex) : bool :=
  (0 <=? row index) && (0 <=? column index) && has_model index.

Definition invalid_index : QModelIndex := mkIndex (-1) (-1) false.

(** [Qt.ItemDataRole] and [Qt.Orientation] are integer enumerations. *)
Definition DisplayRole : Z := 0.
Definition Horizontal : Z := 1.
Definition Vertical : Z := 2.

(** [QVariant()] is the empty variant, [QVariant(s)] wraps a string. *)
Inductive QVariant : Set :=
  | QVariant_empty
  | QVariant_of (s : string).

(** [QUrl(s)]: the URL object built from the string [s], kept symbolic. *)
Inductive QUrl : Set :=
  | QUrl_of (s : string).

(** ** The feed parser's result

    [feedparser.parse] returns a dictionary whose ["feed"] entry is the
    dictionary of feed-level fields and whose ["entries"] entry is the list
    of per-article dictionaries; both keys are always present. *)
Record ParsedFeed : Type := mkFeed {
  feed : gmap string string;
  entries : list (gmap string string)
}.

(** ** Program state *)

(** One row of the table: the Python list [[title, website, summary, link]]. *)
Abbreviation article := (list string).

(** References to list objects of the Python store. *)
Abbreviation loc := positive.

Record RssModel : Type := mkModel {
  arraydata : loc;          (* the list object the model reads *)
  layoutChanged : nat       (* how many times layoutChanged was emitted *)
}.

Record RssFrame : Type := mkFrame {
  data : loc;                           (* self.data *)
  rssModel : RssModel;                  (* self.rssModel *)
  feedURLEdit : string;                 (* self.feedURLEdit.text() *)
  selectedIndexes : list QModelIndex;   (* self.rssTable.selectedIndexes() *)
  description : option string;          (* last document given to setHtml *)
  browser : option QUrl                 (* last URL given to load *)
}.

Record state : Type := mkState {
  heap : gmap loc (list article);
  self : RssFrame
}.

(** The list object a reference denotes. *)
Definition deref (st : state) (l : loc) : list article := heap st !!! l.

(** ** The monad of slots and methods *)

Definition M (A : Type) : Type := state -> state * result A.

#[global] Instance M_ret : MRet M := fun A a st => (st, Ok a).

#[global] Instance M_bind : MBind M := fun A B k m st =>
  match m st with
  | (st', Ok a) => k a st'
  | (st', Raise e) => (st', Raise e)
  end.

Definition lift {A : Type} (r : result A) : M A := fun st => (st, r).
Definition gets {A : Type} (f : state -> A) : M A := fun st => (st, Ok (f st)).
Definition modify (f : state -> state) : M unit := fun st => (f st, Ok tt).

(** [for x in xs: body(x)] *)
Fixpoint for_each {A : Type} (xs : list A) (body : A -> M unit) : M unit :=
  match xs with
  | [] => mret tt
  | x :: xs' => body x ;; for_each xs' body
  end.

(** State updates. *)
Definition set_model (m : RssModel) (f : RssFrame) : RssFrame :=
  mkFrame (data f) m (feedURLEdit f) (selectedIndexes f) (description f) (browser f).

Definition set_description (h : string) (f : RssFrame) : RssFrame :=
  mkFrame (data f) (rssModel f) (feedURLEdit f) (selectedIndexes f) (Some h) (browser f).

Definition set_browser (u : QUrl) (f : RssFrame) : RssFrame :=
  mkFrame (data f) (rssModel f) (feedURLEdit f) (selectedIndexes f) (description f) (Some u).

Definition set_self (f : RssFrame -> RssFrame) (st : state) : state :=
  mkState (heap st) (f (self st)).

(** [lst.append(x)] on the list object at [l]: in place. *)
Definition list_append (l : loc) (x : article) (st : state) : state :=
  mkState (<[l := deref st l ++ [x]]> (heap st)) (self st).

(** ** class RssModel *)

Module RssModel.

(** The list the model currently shows. *)
Definition rows (st : state) : list article :=
  deref st (arraydata (rssModel (self st))).

Definition rowCount (parent : QModelIndex) : M Z :=
  arr ← gets rows;
  mret (Z.of_nat (length arr)).

Definition columnCount (parent : QModelIndex) : M Z :=
  arr ← gets rows;
  if 0 <? Z.of_nat (length arr) then
    first ← lift (getitem_list arr 0);
    mret (Z.of_nat (length first) - 2)
  else mret 0.

Definition data (index : QModelIndex) (role : Z) : M QVariant :=
  if negb (isValid index) then mret QVariant_empty
  else if column index <? 2 then
    if role =? DisplayRole then
      arr ← gets rows;
      r ← lift (getitem_list arr (row index));
      cell ← lift (getitem_list r (column index));
      mret (QVariant_of cell)
    else mret QVariant_empty
  else mret QVariant_empty.

Definition update (datain : loc) : M unit :=
  modify (set_self (fun f =>
    set_model (mkModel datain (S (layoutChanged (rssModel f)))) f)).

Definition summary (index : QModelIndex) : M string :=
  arr ← gets rows;
  r ← lift (getitem_list arr (row index));
  lift (getitem_list r 2).

Definition url (index : QModelIndex) : M string :=
  arr ← gets rows;
  r ← lift (getitem_list arr (row index));
  lift (getitem_list r 3).

(** Returns [None] (Python's) for a vertical header and, by falling off
    the end, for every other role or orientation. *)
Definition headerData (section : Z) (orientation : Z) (role : Z)
  : M (option string) :=
  if role =? DisplayRole then
    if orientation =? Horizontal then
      h ← lift (getitem_list ["Title"; "Website"]%string section);
      mret (Some h)
    else if orientation =? Vertical then mret None
    else mret None
  else mret None.

End RssModel.

(** ** class RssFrame *)

Module RssFrame.

(** [__init__]: the frame allocates the empty article list and hands the
    same object to the model; nothing is selected or displayed yet. *)
Definition init : state :=
  let l : loc := 1%positive in
  mkState {[ l := [] ]}
          (mkFrame l (mkModel l 0) EmptyString [] None None).

Section WithParser.

(** [feedparser.parse], the external fetcher and parser. *)
Variable parse : string -> ParsedFeed.

(** The body of the loop over [feed["entries"]]. *)
Definition append_entry (website : string) (key : gmap string string)
  : M unit :=
  title ← lift (getitem_dict key "title");
  link ← lift (getitem_dict key "link");
  summary ← lift (getitem_dict key "summary");
  l ← gets (fun st => data (self st));
  modify (list_append l [title; website; summary; link]).

(** The slot ends by setting the header's resize mode again, which changes
    no data and is left out. *)
Definition on_button_click : M unit :=
  rss ← gets (fun st => feedURLEdit (self st));
  let parsed := parse rss in
  website ← lift (getitem_dict (feed parsed) "title");
  for_each (entries parsed) (append_entry website);;
  l ← gets (fun st => data (self st));
  RssModel.update l.

End WithParser.

Definition on_click : M unit :=
  sel ← gets (fun st => selectedIndexes (self st));
  index ← lift (getitem_list sel 0);
  s ← RssModel.summary index;
  html ← lift (percent_format "<html><body>%s</body></html>" (Some s));
  modify (set_self (set_description html)).

Definition on_double_click : M unit :=
  sel ← gets (fun st => selectedIndexes (self st));
  index ← lift (getitem_list sel 0);
  s ← RssModel.url index;
  let url := QUrl_of s in
  modify (set_self (set_browser url)).

End RssFrame.

(** ** User interaction

    Between two slots the user may retype the URL or change the selection.
    A run of the application is a sequence of such events from the state
    built by [__init__].  A slot that raises is taken to leave the state it
    reached, which covers every way the toolkit may treat the exception. *)

Definition set_text (t : string) (f : RssFrame) : RssFrame :=
  mkFrame (data f) (rssModel f) t (selectedIndexes f) (description f) (browser f).

Definition set_selection (sel : list QModelIndex) (f : RssFrame) : RssFrame :=
  mkFrame (data f) (rssModel f) (feedURLEdit f) sel (description f) (browser f).

Inductive event : Type :=
  | Edit (text : string)
  | Select (sel : list QModelIndex)
  | ButtonClick
  | Click
  | DoubleClick.

Definition step (parse : string -> ParsedFeed) (st : state) (ev : event) : state :=
  match ev with
  | Edit t => set_self (set_text t) st
  | Select sel => set_self (set_selection sel) st
  | ButtonClick => (RssFrame.on_button_click parse st).1
  | Click => (RssFrame.on_click st).1
  | DoubleClick => (RssFrame.on_double_click st).1
  end.

Definition run (parse : string -> ParsedFeed) (evs : list event) : state :=
  foldl (step parse) RssFrame.init evs.

(** ** Specification vocabulary *)

(** The three fields the fetch reads from an entry. *)
Definition entry_fields (e : gmap string string) (t l s : string) : Prop :=
  e !! "title"%string = Some t /\ e !! "link"%string = Some l /\
  e !! "summary"%string = Some s.

Definition complete_entry (e : gmap string string) : Prop :=
  is_Some (e !! "title"%string) /\ is_Some (e !! "link"%string) /\
  is_Some (e !! "summary"%string).

Definition valid_feed (p : ParsedFeed) : Prop :=
  is_Some (feed p !! "title"%string) /\ Forall complete_entry (entries p).

(** [r] is the record the loop body builds from entry [e]. *)
Definition record_of (website : string) (e : gmap string string) (r : article)
  : Prop :=
  exists t l s, entry_fields e t l s /\ r = [t; website; s; l].

(** The store after appending the records [rs], one by one, to [self.data]. *)
Definition extend (rs : list article) (st : state) : state :=
  foldl (fun st r => list_append (data (self st)) r st) st rs.

(** The state a completed fetch leaves: the records [rs] appended, then
    [RssModel.update] run on the frame's list. *)
Definition after_fetch (rs : list article) (st : state) : state :=
  set_self (fun f => set_model
    (mkModel (data f) (S (layoutChanged (rssModel f)))) f) (extend rs st).

(** The frame and the model look at the same list object. *)
Definition aliased (st : state) : Prop :=
  arraydata (rssModel (self st)) = data (self st).

(** Every row of the article list has the four fields of a record. *)
Definition four_fields (rows : list article) : Prop :=
  Forall (fun r => length r = 4%nat) rows.

Definition frame_inv (st : state) : Prop :=
  aliased st /\ four_fields (deref st (data (self st))).

(** The feed of the specification's worked example. *)
Definition example_feed : ParsedFeed :=
  mkFeed {[ "title" := "Site" ]}%string
         [ {[ "title" := "A"; "link" := "http://x/a"; "summary" := "sa" ]};
           {[ "title" := "B"; "link" := "http://x/b"; "summary" := "sb" ]} ]%string.

Definition example_state : state :=
  run (fun _ => example_feed) [ButtonClick; Select [mkIndex 1 0 true]].

(** The same feed with a third entry, and the second entry's summary gone. *)
Definition broken_feed : ParsedFeed :=
  mkFeed {[ "title" := "Site" ]}%string
         [ {[ "title" := "A"; "link" := "http://x/a"; "summary" := "sa" ]};
           {[ "title" := "B"; "link" := "http://x/b" ]};
           {[ "title" := "C"; "link" := "http://x/c"; "summary" := "sc" ]} ]%string.

(** The same feed without its feed-level title. *)
Definition untitled_feed : ParsedFeed := mkFeed ∅ (entries example_feed).

(** [r] is the record of some entry of the parsed feed [p], with the title
    of [p] as its source. *)
Definition from_feed (p : ParsedFeed) (r : article) : Prop :=
  exists website e,
    feed p !! "title"%string = Some website /\ e ∈ entries p /\
    record_of website e r.

(** * Properties *)

(** Unfolds the monad's plumbing. *)
Ltac unfold_M :=
  unfold mbind, M_bind, mret, M_ret, lift, gets, modify in *.

(** ** Python indexing *)

Section Indexing.
Context {A : Type}.
Implicit Types (l : list A) (i : Z) (n : nat) (x : A).

Lemma getitem_list_nat l n x :
  l !! n = Some x -> getitem_list l (Z.of_nat n) = Ok x.
Proof.
  intros Hx. pose proof (lookup_lt_Some _ _ _ Hx) as Hlt.
  unfold getitem_list.
  destruct (Z.ltb_spec (Z.of_nat n) 0) as [?|_]; [lia|].
  destruct (Z.ltb_spec (Z.of_nat n) 0) as [?|_]; [lia|].
  destruct (Z.leb_spec (Z.of_nat (length l)) (Z.of_nat n)) as [?|_]; [lia|].
  simpl. by rewrite Nat2Z.id, Hx.
Qed.

Lemma getitem_list_beyond l i :
  Z.of_nat (length l) <= i \/ i < - Z.of_nat (length l) ->
  getitem_list l i = Raise IndexError.
Proof.
  intros Hi. unfold getitem_list.
  destruct (Z.ltb_spec i 0) as [Hneg|Hpos].
  - destruct (Z.ltb_spec (i + Z.of_nat (length l)) 0) as [?|?]; [done|lia].
  - destruct (Z.ltb_spec i 0) as [?|_]; [lia|].
    destruct (Z.leb_spec (Z.of_nat (length l)) i) as [?|?]; [done|lia].
Qed.

Lemma getitem_list_Ok l i x :
  getitem_list l i = Ok x ->
  exists n, l !! n = Some x /\
    (i = Z.of_nat n \/ i = Z.of_nat n - Z.of_nat (length l)).
Proof.
  unfold getitem_list.
  set (j := if i <? 0 then i + Z.of_nat (length l) else i).
  destruct ((j <? 0) || (Z.of_nat (length l) <=? j)) eqn:Hrange; [done|].
  apply orb_false_iff in Hrange as [Hlo Hhi].
  apply Z.ltb_ge in Hlo. apply Z.leb_gt in Hhi.
  destruct (l !! Z.to_nat j) as [y|] eqn:Hy; [|done].
  intros [= ->]. exists (Z.to_nat j). split; [done|].
  subst j. destruct (i <? 0); lia.
Qed.

End Indexing.

Lemma getitem_dict_Some d k v : d !! k = Some v -> getitem_dict d k = Ok v.
Proof. unfold getitem_dict. by intros ->. Qed.

Lemma getitem_dict_None d k : d !! k = None -> getitem_dict d k = Raise KeyError.
Proof. unfold getitem_dict. by intros ->. Qed.

(** ** The store *)

Lemma deref_list_append l x st :
  deref (list_append l x st) l = deref st l ++ [x].
Proof. unfold deref, list_append. simpl. by rewrite lookup_total_insert_eq. Qed.

Lemma deref_list_append_ne l l' x st :
  l <> l' -> deref (list_append l x st) l' = deref st l'.
Proof. intros. unfold deref, list_append. simpl. by rewrite lookup_total_insert_ne. Qed.

Lemma self_extend rs st : self (extend rs st) = self st.
Proof.
  revert st. induction rs as [|r rs IH]; intros st; [done|].
  unfold extend in *. simpl. by rewrite IH.
Qed.

Lemma deref_extend rs st :
  deref (extend rs st) (data (self st)) = deref st (data (self st)) ++ rs.
Proof.
  revert st. induction rs as [|r rs IH]; intros st.
  - by rewrite app_nil_r.
  - unfold extend in *. simpl.
    specialize (IH (list_append (data (self st)) r st)). simpl in IH.
    rewrite IH, deref_list_append. by rewrite <- app_assoc.
Qed.

Lemma deref_extend_ne rs st l :
  l <> data (self st) -> deref (extend rs st) l = deref st l.
Proof.
  revert st. induction rs as [|r rs IH]; intros st Hl; [done|].
  unfold extend in *. simpl.
  rewrite IH by done. by apply deref_list_append_ne.
Qed.

(** ** The loop of the fetch *)

Lemma complete_entry_fields e :
  complete_entry e <-> exists t l s, entry_fields e t l s.
Proof.
  unfold complete_entry, entry_fields, is_Some. split.
  - intros ([t ?] & [l ?] & [s ?]). by exists t, l, s.
  - intros (t & l & s & ? & ? & ?). repeat split; eauto.
Qed.

Lemma complete_entries_records website es :
  Forall complete_entry es -> exists rs, Forall2 (record_of website) es rs.
Proof.
  induction 1 as [|e es He _ [rs IH]]; [by exists []|].
  apply complete_entry_fields in He as (t & l & s & He).
  exists ([t; website; s; l] :: rs). constructor; [|done].
  by exists t, l, s.
Qed.

Lemma for_each_app {A : Type} (xs ys : list A) body st :
  for_each (xs ++ ys) body st =
  match for_each xs body st with
  | (st', Ok _) => for_each ys body st'
  | (st', Raise e) => (st', Raise e)
  end.
Proof.
  revert st. induction xs as [|x xs IH]; intros st; [done|].
  simpl. unfold_M. destruct (body x st) as [st1 [[]|e]]; [apply IH|done].
Qed.

Section Fetch.
Variable parse : string -> ParsedFeed.
Implicit Types (st : state) (e : gmap string string) (website : string).

Lemma append_entry_ok website e r st :
  record_of website e r ->
  RssFrame.append_entry website e st =
  (list_append (data (self st)) r st, Ok tt).
Proof.
  intros (t & l & s & (Ht & Hl & Hs) & ->).
  unfold RssFrame.append_entry. unfold_M.
  by rewrite (getitem_dict_Some _ _ _ Ht), (getitem_dict_Some _ _ _ Hl),
             (getitem_dict_Some _ _ _ Hs).
Qed.

Lemma append_entry_fail website e st :
  ~ complete_entry e ->
  RssFrame.append_entry website e st = (st, Raise KeyError).
Proof.
  intros Hno. unfold RssFrame.append_entry, getitem_dict. unfold_M.
  destruct (e !! "title"%string) as [t|] eqn:Ht; [|done].
  destruct (e !! "link"%string) as [l|] eqn:Hl; [|done].
  destruct (e !! "summary"%string) as [s|] eqn:Hs; [|done].
  destruct Hno. unfold complete_entry. rewrite Ht, Hl, Hs. eauto.
Qed.

Lemma for_each_append_ok website es rs st :
  Forall2 (record_of website) es rs ->
  for_each es (RssFrame.append_entry website) st = (extend rs st, Ok tt).
Proof.
  intros Hrs. revert st. induction Hrs as [|e r es rs He _ IH]; intros st; [done|].
  simpl. unfold mbind at 1, M_bind at 1.
  rewrite (append_entry_ok _ _ _ _ He). apply IH.
Qed.

Lemma for_each_append_fail website pre e post rs st :
  Forall2 (record_of website) pre rs ->
  ~ complete_entry e ->
  for_each (pre ++ e :: post) (RssFrame.append_entry website) st =
  (extend rs st, Raise KeyError).
Proof.
  intros Hrs Hno. rewrite for_each_app, (for_each_append_ok _ _ _ _ Hrs).
  simpl. unfold mbind at 1, M_bind at 1. by rewrite append_entry_fail.
Qed.

Lemma on_button_click_no_title st :
  feed (parse (feedURLEdit (self st))) !! "title"%string = None ->
  RssFrame.on_button_click parse st = (st, Raise KeyError).
Proof.
  intros Hw. unfold RssFrame.on_button_click. unfold_M.
  by rewrite (getitem_dict_None _ _ Hw).
Qed.

Lemma on_button_click_partial website pre e post rs st :
  feed (parse (feedURLEdit (self st))) !! "title"%string = Some website ->
  entries (parse (feedURLEdit (self st))) = pre ++ e :: post ->
  Forall2 (record_of website) pre rs ->
  ~ complete_entry e ->
  RssFrame.on_button_click parse st = (extend rs st, Raise KeyError).
Proof.
  intros Hw Hes Hrs Hno. unfold RssFrame.on_button_click. unfold_M.
  rewrite (getitem_dict_Some _ _ _ Hw), Hes.
  by rewrite (for_each_append_fail _ _ _ _ _ _ Hrs Hno).
Qed.

(** A fetch of a well-formed feed, as one equation. *)
Lemma on_button_click_ok website rs st :
  feed (parse (feedURLEdit (self st))) !! "title"%string = Some website ->
  Forall2 (record_of website) (entries (parse (feedURLEdit (self st)))) rs ->
  RssFrame.on_button_click parse st = (after_fetch rs st, Ok tt).
Proof.
  intros Hw Hrs. unfold RssFrame.on_button_click, RssModel.update. unfold_M.
  rewrite (getitem_dict_Some _ _ _ Hw), (for_each_append_ok _ _ _ _ Hrs).
  done.
Qed.

End Fetch.

(** ** What the model shows *)

Lemma rows_after_fetch rs st :
  RssModel.rows (after_fetch rs st) = deref st (data (self st)) ++ rs.
Proof.
  unfold RssModel.rows, after_fetch, set_self, deref.
  cbn [self heap rssModel arraydata set_model data].
  rewrite self_extend. apply deref_extend.
Qed.

Lemma rowCount_eq parent st :
  RssModel.rowCount parent st = (st, Ok (Z.of_nat (length (RssModel.rows st)))).
Proof. done. Qed.

Lemma summary_row index n r s st :
  row index = Z.of_nat n ->
  RssModel.rows st !! n = Some r -> r !! 2%nat = Some s ->
  RssModel.summary index st = (st, Ok s).
Proof.
  intros Hrow Hr Hs. unfold RssModel.summary. unfold_M.
  rewrite Hrow, (getitem_list_nat _ _ _ Hr).
  by rewrite (getitem_list_nat r 2 s Hs : getitem_list r 2 = Ok s).
Qed.

Lemma url_row index n r l st :
  row index = Z.of_nat n ->
  RssModel.rows st !! n = Some r -> r !! 3%nat = Some l ->
  RssModel.url index st = (st, Ok l).
Proof.
  intros Hrow Hr Hl. unfold RssModel.url. unfold_M.
  rewrite Hrow, (getitem_list_nat _ _ _ Hr).
  by rewrite (getitem_list_nat r 3 l Hl : getitem_list r 3 = Ok l).
Qed.

Lemma data_cell index n c r cell st :
  isValid index = true ->
  row index = Z.of_nat n -> column index = Z.of_nat c -> (c < 2)%nat ->
  RssModel.rows st !! n = Some r -> r !! c = Some cell ->
  RssModel.data index DisplayRole st = (st, Ok (QVariant_of cell)).
Proof.
  intros Hv Hrow Hcol Hc Hr Hcell. unfold RssModel.data. rewrite Hv. simpl.
  destruct (Z.ltb_spec (column index) 2) as [_|?]; [|lia].
  unfold_M. rewrite Hrow, (getitem_list_nat _ _ _ Hr).
  by rewrite Hcol, (getitem_list_nat _ _ _ Hcell).
Qed.

(** The record built from the [i]-th entry sits [i] places after the old
    rows. *)
Lemma records_lookup website es rs i e :
  Forall2 (record_of website) es rs -> es !! i = Some e ->
  exists t l s, entry_fields e t l s /\ rs !! i = Some [t; website; s; l].
Proof.
  intros Hrs He.
  destruct (Forall2_lookup_l _ _ _ _ _ Hrs He) as (r & Hr & (t & l & s & Hf & ->)).
  by exists t, l, s.
Qed.

(** ** The invariant of the running application *)

Lemma frame_inv_init : frame_inv RssFrame.init.
Proof. split; [done|]. unfold four_fields. by vm_compute. Qed.

Lemma frame_inv_extend rs st :
  four_fields rs -> frame_inv st -> frame_inv (extend rs st).
Proof.
  intros Hrs [Hal Hold]. split.
  - unfold aliased. by rewrite self_extend.
  - rewrite self_extend, deref_extend. by apply Forall_app.
Qed.

Lemma frame_inv_set_self g st :
  (forall f, data (g f) = data f) ->
  (forall f, arraydata (rssModel f) = data f ->
             arraydata (rssModel (g f)) = data (g f)) ->
  frame_inv st -> frame_inv (set_self g st).
Proof.
  intros Hd Hm [Hal Hold]. split.
  - unfold aliased, set_self. simpl. by apply Hm.
  - unfold set_self, deref in *. simpl. by rewrite Hd.
Qed.

Lemma frame_inv_after_fetch rs st :
  four_fields rs -> frame_inv st -> frame_inv (after_fetch rs st).
Proof.
  intros Hrs Hinv. destruct (frame_inv_extend rs st Hrs Hinv) as [_ Hrows].
  split; [done|]. apply Hrows.
Qed.

(** Whatever the feed, the loop leaves some records appended. *)
Lemma for_each_append_state website es st :
  exists rs, four_fields rs /\
    (for_each es (RssFrame.append_entry website) st).1 = extend rs st.
Proof.
  revert st. induction es as [|e es IH]; intros st.
  - exists []. split; [constructor|done].
  - simpl. unfold mbind at 1, M_bind at 1.
    destruct (e !! "title"%string) as [t|] eqn:Ht;
      [destruct (e !! "link"%string) as [l|] eqn:Hl;
        [destruct (e !! "summary"%string) as [s|] eqn:Hs|]|].
    + assert (record_of website e [t; website; s; l]) as Hrec
        by (by exists t, l, s).
      rewrite (append_entry_ok _ _ _ _ Hrec).
      destruct (IH (list_append (data (self st)) [t; website; s; l] st))
        as (rs & Hrs & Heq).
      exists ([t; website; s; l] :: rs). split; [by constructor|].
      by rewrite Heq.
    + rewrite append_entry_fail.
      * exists []. split; [constructor|done].
      * intros (_ & _ & [? ?]). congruence.
    + rewrite append_entry_fail.
      * exists []. split; [constructor|done].
      * intros (_ & [? ?] & _). congruence.
    + rewrite append_entry_fail.
      * exists []. split; [constructor|done].
      * intros ([? ?] & _). congruence.
Qed.

Lemma frame_inv_on_button_click parse st :
  frame_inv st -> frame_inv (RssFrame.on_button_click parse st).1.
Proof.
  intros Hinv. unfold RssFrame.on_button_click. unfold_M.
  destruct (getitem_dict _ _) as [website|]; [|done].
  destruct (for_each_append_state website
              (entries (parse (feedURLEdit (self st)))) st) as (rs & Hrs & Heq).
  destruct (for_each _ _ st) as [st1 [[]|err]]; simpl in Heq; subst st1;
    [|by apply frame_inv_extend].
  change (frame_inv (after_fetch rs st)).
  by apply frame_inv_after_fetch.
Qed.

(** Destructs every Python list access of the goal. *)
Ltac case_getitem :=
  repeat (match goal with
          | |- context [getitem_list ?l ?i] => destruct (getitem_list l i)
          end; simpl; try done).

Lemma frame_inv_on_click st : frame_inv st -> frame_inv (RssFrame.on_click st).1.
Proof.
  intros Hinv. unfold RssFrame.on_click, RssModel.summary. unfold_M.
  case_getitem.
Qed.

Lemma frame_inv_on_double_click st :
  frame_inv st -> frame_inv (RssFrame.on_double_click st).1.
Proof.
  intros Hinv. unfold RssFrame.on_double_click, RssModel.url. unfold_M.
  case_getitem.
Qed.

Lemma frame_inv_step parse st ev : frame_inv st -> frame_inv (step parse st ev).
Proof.
  intros Hinv. destruct ev; simpl.
  - by apply frame_inv_set_self.
  - by apply frame_inv_set_self.
  - by apply frame_inv_on_button_click.
  - by apply frame_inv_on_click.
  - by apply frame_inv_on_double_click.
Qed.

(** Every state the application reaches satisfies the invariant. *)
Lemma frame_inv_run parse evs : frame_inv (run parse evs).
Proof.
  unfold run. generalize frame_inv_init. generalize RssFrame.init.
  induction evs as [|ev evs IH]; intros st Hinv; [done|].
  simpl. apply IH. by apply frame_inv_step.
Qed.

(** ** The fetch *)

Lemma example_feed_valid : valid_feed example_feed.
Proof.
  split; [by eexists|].
  repeat constructor; by eexists.
Qed.

(** C1: fetching a valid feed (a feed-level title, and a title, a link and
    a summary in every entry) with N entries does not raise and leaves the
    table model with N rows more than it had; with no entry the row count
    is the same as before. *)
Theorem fetch_valid_feed_row_count parse st parent :
  aliased st ->
  valid_feed (parse (feedURLEdit (self st))) ->
  exists st',
    RssFrame.on_button_click parse st = (st', Ok tt) /\
    (RssModel.rowCount parent st').2 =
      Ok (Z.of_nat (length (RssModel.rows st)) +
          Z.of_nat (length (entries (parse (feedURLEdit (self st)))))) /\
    (RssModel.rowCount parent st).2 = Ok (Z.of_nat (length (RssModel.rows st))) /\
    (entries (parse (feedURLEdit (self st))) = [] ->
     (RssModel.rowCount parent st').2 = (RssModel.rowCount parent st).2).
Proof.
  intros Hal [[website Hw] Hes].
  destruct (complete_entries_records website _ Hes) as [rs Hrs].
  exists (after_fetch rs st).
  assert ((RssModel.rowCount parent (after_fetch rs st)).2 =
          Ok (Z.of_nat (length (RssModel.rows st)) +
              Z.of_nat (length (entries (parse (feedURLEdit (self st)))))))
    as Hcount.
  { rewrite rowCount_eq, rows_after_fetch. simpl.
    rewrite length_app, (Forall2_length _ _ _ Hrs).
    unfold RssModel.rows. rewrite Hal. f_equal. lia. }
  split; [by apply on_button_click_ok with website|].
  split; [done|]. split; [done|].
  intros Hnil. rewrite Hcount, Hnil, rowCount_eq. simpl. f_equal. lia.
Qed.

Lemma fetch_valid_feed_row_count_witness :
  aliased RssFrame.init /\ valid_feed example_feed /\
  exists st',
    RssFrame.on_button_click (fun _ => example_feed) RssFrame.init = (st', Ok tt) /\
    (RssModel.rowCount invalid_index st').2 = Ok (0 + 2).
Proof.
  split; [reflexivity|]. split; [apply example_feed_valid|].
  destruct (fetch_valid_feed_row_count (fun _ => example_feed) RssFrame.init
              invalid_index eq_refl example_feed_valid)
    as (st' & Hrun & Hcount & _).
  exists st'. split; [exact Hrun | exact Hcount].
Defined.

(** C2: every record a fetch appends has the feed-level title as its source
    and the entry's own title, summary and link in the other fields; and on
    every row the model holds, [summary] and [url] return the stored summary
    and link strings as they are. *)
Theorem fetch_records_and_accessors parse st website :
  feed (parse (feedURLEdit (self st))) !! "title"%string = Some website ->
  Forall complete_entry (entries (parse (feedURLEdit (self st)))) ->
  exists st',
    RssFrame.on_button_click parse st = (st', Ok tt) /\
    (forall i e,
        entries (parse (feedURLEdit (self st))) !! i = Some e ->
        exists t l s,
          entry_fields e t l s /\
          RssModel.rows st' !! (length (deref st (data (self st))) + i)%nat =
            Some [t; website; s; l]) /\
    (forall index n t w s l,
        row index = Z.of_nat n ->
        RssModel.rows st' !! n = Some [t; w; s; l] ->
        RssModel.summary index st' = (st', Ok s) /\
        RssModel.url index st' = (st', Ok l)).
Proof.
  intros Hw Hes.
  destruct (complete_entries_records website _ Hes) as [rs Hrs].
  exists (after_fetch rs st).
  split; [by apply on_button_click_ok with website|]. split.
  - intros i e He.
    destruct (records_lookup _ _ _ _ _ Hrs He) as (t & l & s & Hf & Hr).
    exists t, l, s. split; [done|].
    rewrite rows_after_fetch, lookup_app_r by lia.
    by replace (length (deref st (data (self st))) + i
                - length (deref st (data (self st))))%nat with i by lia.
  - intros index n t w s l Hrow Hr. split.
    + by apply summary_row with n [t; w; s; l].
    + by apply url_row with n [t; w; s; l].
Qed.

Lemma fetch_records_and_accessors_witness :
  exists st',
    RssFrame.on_button_click (fun _ => example_feed) RssFrame.init = (st', Ok tt) /\
    RssModel.rows st' !! 1%nat = Some ["B"; "Site"; "sb"; "http://x/b"]%string /\
    RssModel.summary (mkIndex 1 0 true) st' = (st', Ok "sb"%string) /\
    RssModel.url (mkIndex 1 0 true) st' = (st', Ok "http://x/b"%string).
Proof.
  destruct (fetch_records_and_accessors (fun _ => example_feed) RssFrame.init
              "Site"%string eq_refl (proj2 example_feed_valid))
    as (st' & Hrun & Hnew & Hacc).
  exists st'. split; [exact Hrun|].
  destruct (Hnew 1%nat _ eq_refl) as (t & l & s & (Ht & Hl & Hs) & Hrow).
  injection Ht as <-. injection Hl as <-. injection Hs as <-.
  split; [exact Hrow|].
  exact (Hacc (mkIndex 1 0 true) 1%nat _ _ _ _ eq_refl Hrow).
Defined.

(** C3: after a fetch the two displayed cells of each new row are the
    entry's title (column 0) and the feed-level title (column 1), the row
    of the i-th entry comes i places after the rows that were there, and
    those earlier rows keep their places. *)
Theorem fetch_displayed_cells parse st website :
  feed (parse (feedURLEdit (self st))) !! "title"%string = Some website ->
  Forall complete_entry (entries (parse (feedURLEdit (self st)))) ->
  exists st',
    RssFrame.on_button_click parse st = (st', Ok tt) /\
    (forall i e,
        entries (parse (feedURLEdit (self st))) !! i = Some e ->
        exists t l s,
          entry_fields e t l s /\
          forall index,
            isValid index = true ->
            row index = Z.of_nat (length (deref st (data (self st))) + i) ->
            (column index = 0 ->
             RssModel.data index DisplayRole st' = (st', Ok (QVariant_of t))) /\
            (column index = 1 ->
             RssModel.data index DisplayRole st' = (st', Ok (QVariant_of website)))) /\
    (forall n r,
        deref st (data (self st)) !! n = Some r ->
        RssModel.rows st' !! n = Some r).
Proof.
  intros Hw Hes.
  destruct (complete_entries_records website _ Hes) as [rs Hrs].
  exists (after_fetch rs st).
  split; [by apply on_button_click_ok with website|]. split.
  - intros i e He.
    destruct (records_lookup _ _ _ _ _ Hrs He) as (t & l & s & Hf & Hr).
    exists t, l, s. split; [done|]. intros index Hv Hrow.
    assert (RssModel.rows (after_fetch rs st)
              !! (length (deref st (data (self st))) + i)%nat =
            Some [t; website; s; l]) as Hcell.
    { rewrite rows_after_fetch, lookup_app_r by lia.
      by replace (length (deref st (data (self st))) + i
                  - length (deref st (data (self st))))%nat with i by lia. }
    split; intros Hcol.
    + by eapply (data_cell index _ 0%nat); eauto.
    + by eapply (data_cell index _ 1%nat); eauto.
  - intros n r Hr. rewrite rows_after_fetch. by apply lookup_app_l_Some.
Qed.

Lemma fetch_displayed_cells_witness :
  exists st',
    RssFrame.on_button_click (fun _ => example_feed) RssFrame.init = (st', Ok tt) /\
    RssModel.data (mkIndex 1 0 true) DisplayRole st' =
      (st', Ok (QVariant_of "B"%string)) /\
    RssModel.data (mkIndex 1 1 true) DisplayRole st' =
      (st', Ok (QVariant_of "Site"%string)).
Proof.
  destruct (fetch_displayed_cells (fun _ => example_feed) RssFrame.init
              "Site"%string eq_refl (proj2 example_feed_valid))
    as (st' & Hrun & Hnew & _).
  exists st'. split; [exact Hrun|].
  destruct (Hnew 1%nat _ eq_refl) as (t & l & s & (Ht & _) & Hcells).
  injection Ht as <-.
  split.
  - exact (proj1 (Hcells (mkIndex 1 0 true) eq_refl eq_refl) eq_refl).
  - exact (proj2 (Hcells (mkIndex 1 1 true) eq_refl eq_refl) eq_refl).
Defined.

(** ** The selection slots *)

(** The format of [on_click] puts its argument between the two tags. *)
Lemma percent_format_envelope s :
  percent_format "<html><body>%s</body></html>" (Some s) =
  Ok ("<html><body>" +:+ s +:+ "</body></html>")%string.
Proof. reflexivity. Qed.

(** C4: with row r selected and summary s stored for it, the single-click
    slot gives the description pane exactly "<html><body>" + s +
    "</body></html>": s is wrapped as it is, whatever it contains. *)
Theorem on_click_renders_summary st index rest n r s :
  selectedIndexes (self st) = index :: rest ->
  row index = Z.of_nat n ->
  RssModel.rows st !! n = Some r ->
  r !! 2%nat = Some s ->
  RssFrame.on_click st =
  (set_self (set_description ("<html><body>" +:+ s +:+ "</body></html>")%string) st,
   Ok tt).
Proof.
  intros Hsel Hrow Hr Hs. unfold RssFrame.on_click. unfold_M.
  rewrite Hsel. change (getitem_list (index :: rest) 0) with (Ok index).
  cbv beta iota.
  rewrite (summary_row _ _ _ _ _ Hrow Hr Hs).
  by rewrite percent_format_envelope.
Qed.

Lemma on_click_renders_summary_witness :
  description (self (RssFrame.on_click example_state).1) =
    Some "<html><body>sb</body></html>"%string /\
  (RssFrame.on_click example_state).2 = Ok tt.
Proof.
  rewrite (on_click_renders_summary example_state (mkIndex 1 0 true) [] 1%nat
             ["B"; "Site"; "sb"; "http://x/b"]%string "sb"%string
             eq_refl eq_refl eq_refl eq_refl).
  split; reflexivity.
Defined.

(** C5: with row r selected and link l stored for it, the double-click slot
    loads the URL built from l itself; no string is rejected, whatever its
    scheme or shape. *)
Theorem on_double_click_loads_link st index rest n r l :
  selectedIndexes (self st) = index :: rest ->
  row index = Z.of_nat n ->
  RssModel.rows st !! n = Some r ->
  r !! 3%nat = Some l ->
  RssFrame.on_double_click st = (set_self (set_browser (QUrl_of l)) st, Ok tt).
Proof.
  intros Hsel Hrow Hr Hl. unfold RssFrame.on_double_click. unfold_M.
  rewrite Hsel. change (getitem_list (index :: rest) 0) with (Ok index).
  cbv beta iota.
  by rewrite (url_row _ _ _ _ _ Hrow Hr Hl).
Qed.

Lemma on_double_click_loads_link_witness :
  browser (self (RssFrame.on_double_click example_state).1) =
    Some (QUrl_of "http://x/b"%string) /\
  (RssFrame.on_double_click example_state).2 = Ok tt.
Proof.
  rewrite (on_double_click_loads_link example_state (mkIndex 1 0 true) [] 1%nat
             ["B"; "Site"; "sb"; "http://x/b"]%string "http://x/b"%string
             eq_refl eq_refl eq_refl eq_refl).
  split; reflexivity.
Defined.

(** C9: with nothing selected, the single-click slot and the double-click
    slot both raise IndexError, and neither changes anything. *)
Theorem slots_raise_on_empty_selection st :
  selectedIndexes (self st) = [] ->
  RssFrame.on_click st = (st, Raise IndexError) /\
  RssFrame.on_double_click st = (st, Raise IndexError).
Proof.
  intros Hsel. unfold RssFrame.on_click, RssFrame.on_double_click. unfold_M.
  by rewrite Hsel.
Qed.

Lemma slots_raise_on_empty_selection_witness :
  RssFrame.on_click RssFrame.init = (RssFrame.init, Raise IndexError) /\
  RssFrame.on_double_click RssFrame.init = (RssFrame.init, Raise IndexError).
Proof. apply (slots_raise_on_empty_selection RssFrame.init). reflexivity. Defined.

(** ** The shape of the table *)

(** C6, as the code has it: the column count is 2 as soon as the backing
    list holds a record (each has four fields) and 0 while the list is
    empty; the horizontal display-role headers of sections 0 and 1 are
    "Title" and "Website". *)
Theorem columnCount_and_headers st parent :
  four_fields (RssModel.rows st) ->
  (RssModel.rows st <> [] -> RssModel.columnCount parent st = (st, Ok 2)) /\
  (RssModel.rows st = [] -> RssModel.columnCount parent st = (st, Ok 0)) /\
  RssModel.headerData 0 Horizontal DisplayRole st = (st, Ok (Some "Title"%string)) /\
  RssModel.headerData 1 Horizontal DisplayRole st = (st, Ok (Some "Website"%string)).
Proof.
  intros Hrows. unfold RssModel.columnCount. unfold_M.
  destruct (RssModel.rows st) as [|r rs] eqn:Harr.
  - repeat split; done.
  - apply Forall_cons in Hrows as [Hlen _].
    repeat split; try done. intros _.
    change (getitem_list (r :: rs) 0) with (Ok r). cbv beta iota.
    destruct (Z.ltb_spec 0 (Z.of_nat (length (r :: rs)))) as [_|Hle];
      [|simpl in Hle; lia].
    by rewrite Hlen.
Qed.

Lemma columnCount_and_headers_witness :
  RssModel.columnCount invalid_index example_state = (example_state, Ok 2) /\
  RssModel.headerData 1 Horizontal DisplayRole example_state =
    (example_state, Ok (Some "Website"%string)).
Proof.
  destruct (columnCount_and_headers example_state invalid_index) as (Hcols & _ & _ & Hhead).
  - unfold four_fields. vm_compute. repeat constructor.
  - split; [apply Hcols; discriminate | exact Hhead].
Defined.

(** The claim fails on the freshly built window, whose list is empty: the
    column count is 0, not 2; and the header of section 1 is "Website",
    not "Source". *)
Lemma columnCount_headers_counterexample :
  (RssModel.columnCount invalid_index RssFrame.init).2 = Ok 0 /\
  (RssModel.columnCount invalid_index RssFrame.init).2 <> Ok 2 /\
  (RssModel.headerData 1 Horizontal DisplayRole RssFrame.init).2 =
    Ok (Some "Website"%string) /\
  (RssModel.headerData 1 Horizontal DisplayRole RssFrame.init).2 <>
    Ok (Some "Source"%string).
Proof. repeat split; try reflexivity; vm_compute; discriminate. Qed.

(** C7: for a valid index, [data] returns the empty variant for every
    column from 2 on and for every role other than the display role; when
    it does return a text, the column is 0 or 1, the role is the display
    role and the text is that column's field of the row, so the title or
    the source, never the summary (field 2) or the link (field 3). *)
Theorem data_only_title_and_source st index role :
  isValid index = true ->
  (2 <= column index -> RssModel.data index role st = (st, Ok QVariant_empty)) /\
  (role <> DisplayRole -> RssModel.data index role st = (st, Ok QVariant_empty)) /\
  (forall st' text,
      RssModel.data index role st = (st', Ok (QVariant_of text)) ->
      (column index = 0 \/ column index = 1) /\ role = DisplayRole /\
      exists r, getitem_list (RssModel.rows st) (row index) = Ok r /\
                r !! Z.to_nat (column index) = Some text).
Proof.
  intros Hv. unfold RssModel.data. rewrite Hv. cbn [negb].
  unfold isValid in Hv. apply andb_true_iff in Hv as [Hv _].
  apply andb_true_iff in Hv as [_ Hcol]. apply Z.leb_le in Hcol.
  destruct (Z.ltb_spec (column index) 2) as [Hlt|Hge].
  - destruct (Z.eqb_spec role DisplayRole) as [->|Hrole].
    + split; [lia|]. split; [done|]. intros st' text. unfold_M.
      destruct (getitem_list (RssModel.rows st) (row index)) as [r|] eqn:Hr;
        [|done].
      destruct (getitem_list r (column index)) as [cell|] eqn:Hcell; [|done].
      intros [= <- ->]. split; [lia|]. split; [done|]. exists r. split; [done|].
      destruct (getitem_list_Ok _ _ _ Hcell) as (c & Hc & [Heq|Heq]).
      * by rewrite Heq, Nat2Z.id.
      * pose proof (lookup_lt_Some _ _ _ Hc). lia.
    + split; [done|]. split; [done|]. intros st' text. by unfold_M.
  - split; [done|]. split; [done|]. intros st' text. by unfold_M.
Qed.

Lemma data_only_title_and_source_witness :
  RssModel.data (mkIndex 1 2 true) DisplayRole example_state =
    (example_state, Ok QVariant_empty) /\
  RssModel.data (mkIndex 1 0 true) 2 example_state =
    (example_state, Ok QVariant_empty).
Proof.
  split.
  - apply (proj1 (data_only_title_and_source example_state (mkIndex 1 2 true)
                    DisplayRole eq_refl)).
    simpl. lia.
  - apply (proj1 (proj2 (data_only_title_and_source example_state
                           (mkIndex 1 0 true) 2 eq_refl))).
    discriminate.
Defined.

(** ** Rows out of range *)

(** C8, as the code has it: a row index r with r >= len or r < -len makes
    [summary] and [url] raise IndexError, and the failed access changes
    nothing. *)
Theorem accessors_raise_beyond_range st index :
  Z.of_nat (length (RssModel.rows st)) <= row index \/
  row index < - Z.of_nat (length (RssModel.rows st)) ->
  RssModel.summary index st = (st, Raise IndexError) /\
  RssModel.url index st = (st, Raise IndexError).
Proof.
  intros Hrange. unfold RssModel.summary, RssModel.url. unfold_M.
  by rewrite (getitem_list_beyond _ _ Hrange).
Qed.

Lemma accessors_raise_beyond_range_witness :
  RssModel.summary (mkIndex 2 0 true) example_state =
    (example_state, Raise IndexError) /\
  RssModel.url (mkIndex (-3) 0 true) example_state =
    (example_state, Raise IndexError).
Proof.
  split.
  - apply (accessors_raise_beyond_range example_state (mkIndex 2 0 true)).
    left. vm_compute. discriminate.
  - apply (accessors_raise_beyond_range example_state (mkIndex (-3) 0 true)).
    right. vm_compute. reflexivity.
Defined.

(** The claim fails on a negative row: with two rows in the list, row -1
    (the row of the invalid index [QModelIndex()]) is outside 0..1, yet
    [summary] and [url] return the last row's fields and raise nothing. *)
Lemma accessors_negative_row_counterexample :
  RssModel.rows example_state =
    [["A"; "Site"; "sa"; "http://x/a"]; ["B"; "Site"; "sb"; "http://x/b"]]%string /\
  ~ (0 <= row invalid_index < Z.of_nat (length (RssModel.rows example_state))) /\
  RssModel.summary invalid_index example_state = (example_state, Ok "sb"%string) /\
  RssModel.url invalid_index example_state =
    (example_state, Ok "http://x/b"%string) /\
  RssModel.summary invalid_index example_state <> (example_state, Raise IndexError) /\
  RssModel.url invalid_index example_state <> (example_state, Raise IndexError).
Proof.
  assert (RssModel.summary invalid_index example_state =
          (example_state, Ok "sb"%string)) as Hs by reflexivity.
  assert (RssModel.url invalid_index example_state =
          (example_state, Ok "http://x/b"%string)) as Hu by reflexivity.
  split; [reflexivity|]. split; [simpl; lia|].
  split; [exact Hs|]. split; [exact Hu|].
  rewrite Hs, Hu. split; discriminate.
Qed.

(** ** A fetch that fails half-way *)

(** C10: the fetch is not atomic.  When the feed has its title and entry k
    is the first to lack a title, a link or a summary, the fetch raises
    KeyError with exactly the records of entries 0..k-1 appended to the
    article list, and the model is not updated: [layoutChanged] is not
    emitted.  When the feed-level title is missing, the fetch raises before
    anything is appended and the state is as it was. *)
Theorem fetch_not_atomic parse st :
  (feed (parse (feedURLEdit (self st))) !! "title"%string = None ->
   RssFrame.on_button_click parse st = (st, Raise KeyError)) /\
  (forall website pre e post,
      feed (parse (feedURLEdit (self st))) !! "title"%string = Some website ->
      entries (parse (feedURLEdit (self st))) = pre ++ e :: post ->
      Forall complete_entry pre ->
      ~ complete_entry e ->
      exists st' rs,
        RssFrame.on_button_click parse st = (st', Raise KeyError) /\
        self st' = self st /\
        layoutChanged (rssModel (self st')) = layoutChanged (rssModel (self st)) /\
        deref st' (data (self st')) = deref st (data (self st)) ++ rs /\
        length rs = length pre /\
        (forall i e',
            pre !! i = Some e' ->
            exists t l s,
              entry_fields e' t l s /\ rs !! i = Some [t; website; s; l])).
Proof.
  split; [apply on_button_click_no_title|].
  intros website pre e post Hw Hes Hpre Hno.
  destruct (complete_entries_records website _ Hpre) as [rs Hrs].
  exists (extend rs st), rs.
  split; [by apply on_button_click_partial with website pre e post|].
  rewrite self_extend. split; [done|]. split; [done|].
  split; [apply deref_extend|].
  split; [symmetry; by eapply Forall2_length|].
  intros i e' He'. by eapply records_lookup.
Qed.

Lemma fetch_not_atomic_witness :
  RssFrame.on_button_click (fun _ => untitled_feed) RssFrame.init =
    (RssFrame.init, Raise KeyError) /\
  exists st',
    RssFrame.on_button_click (fun _ => broken_feed) RssFrame.init =
      (st', Raise KeyError) /\
    deref st' (data (self st')) = [["A"; "Site"; "sa"; "http://x/a"]]%string /\
    layoutChanged (rssModel (self st')) = 0%nat.
Proof.
  split.
  - apply (proj1 (fetch_not_atomic (fun _ => untitled_feed) RssFrame.init)).
    reflexivity.
  - destruct (proj2 (fetch_not_atomic (fun _ => broken_feed) RssFrame.init)
                "Site"%string
                [ {[ "title" := "A"; "link" := "http://x/a"; "summary" := "sa" ]} ]%string
                {[ "title" := "B"; "link" := "http://x/b" ]}%string
                [ {[ "title" := "C"; "link" := "http://x/c"; "summary" := "sc" ]} ]%string
                eq_refl eq_refl)
      as (st' & rs & Hrun & _ & Hlayout & Hdata & Hlen & Hrs).
    + repeat constructor; by eexists.
    + intros (_ & _ & [s Hs]). discriminate Hs.
    + exists st'. split; [exact Hrun|]. split; [|exact Hlayout].
      destruct (Hrs 0%nat _ eq_refl) as (t & l & s & (Ht & Hl & Hs) & Hr0).
      injection Ht as <-. injection Hl as <-. injection Hs as <-.
      destruct rs as [|r [|r' rs]]; simpl in Hlen; try discriminate Hlen.
      injection Hr0 as ->. exact Hdata.
Defined.

(** The records of a fetch that failed are already in the list the model
    reads, although the view was never told. *)
Remark partial_fetch_seen_by_model rs st :
  aliased st ->
  RssModel.rows (extend rs st) = RssModel.rows st ++ rs /\
  layoutChanged (rssModel (self (extend rs st))) = layoutChanged (rssModel (self st)).
Proof.
  intros Hal. unfold RssModel.rows. rewrite self_extend, Hal.
  split; [apply deref_extend|done].
Qed.

(** * Further properties of the slots and of the model *)

(** ** The outcomes of a fetch *)

Lemma complete_entry_dec e : complete_entry e \/ ~ complete_entry e.
Proof.
  unfold complete_entry.
  destruct (e !! "title"%string) as [t|]; [|right; intros ([? ?] & _); done].
  destruct (e !! "link"%string) as [l|]; [|right; intros (_ & [? ?] & _); done].
  destruct (e !! "summary"%string) as [s|]; [|right; intros (_ & _ & [? ?]); done].
  left. eauto.
Qed.

(** A list of entries is complete throughout or has a first incomplete
    entry. *)
Lemma entries_split es :
  Forall complete_entry es \/
  exists pre e post,
    es = pre ++ e :: post /\ Forall complete_entry pre /\ ~ complete_entry e.
Proof.
  induction es as [|e es IH]; [by left|].
  destruct (complete_entry_dec e) as [He|He].
  - destruct IH as [IH|(pre & e' & post & -> & Hpre & He')].
    + left. by constructor.
    + right. exists (e :: pre), e', post. split; [done|]. split; [by constructor|done].
  - right. exists [], e, es. split; [done|]. split; [constructor|done].
Qed.

Lemma records_from website es rs r :
  Forall2 (record_of website) es rs -> r ∈ rs ->
  exists e, e ∈ es /\ record_of website e r.
Proof.
  intros Hrs Hr. apply list_elem_of_lookup in Hr as [i Hi].
  destruct (Forall2_lookup_r _ _ _ _ _ Hrs Hi) as (e & He & Hrec).
  exists e. split; [|done]. apply list_elem_of_lookup. eauto.
Qed.

Lemma record_of_four_fields website e r : record_of website e r -> length r = 4%nat.
Proof. by intros (t & l & s & _ & ->). Qed.

(** The three ways a fetch can end. *)
Lemma on_button_click_cases parse st :
  (feed (parse (feedURLEdit (self st))) !! "title"%string = None /\
   RssFrame.on_button_click parse st = (st, Raise KeyError)) \/
  (exists website rs,
      feed (parse (feedURLEdit (self st))) !! "title"%string = Some website /\
      Forall2 (record_of website) (entries (parse (feedURLEdit (self st)))) rs /\
      RssFrame.on_button_click parse st = (after_fetch rs st, Ok tt)) \/
  (exists website pre e post rs,
      feed (parse (feedURLEdit (self st))) !! "title"%string = Some website /\
      entries (parse (feedURLEdit (self st))) = pre ++ e :: post /\
      Forall2 (record_of website) pre rs /\ ~ complete_entry e /\
      RssFrame.on_button_click parse st = (extend rs st, Raise KeyError)).
Proof.
  destruct (feed (parse (feedURLEdit (self st))) !! "title"%string)
    as [website|] eqn:Hw.
  - right.
    destruct (entries_split (entries (parse (feedURLEdit (self st)))))
      as [Hall|(pre & e & post & Hes & Hpre & He)].
    + left. destruct (complete_entries_records website _ Hall) as [rs Hrs].
      exists website, rs. split; [done|]. split; [done|].
      by apply on_button_click_ok with website.
    + right. destruct (complete_entries_records website _ Hpre) as [rs Hrs].
      exists website, pre, e, post, rs. repeat (split; [done|]).
      by apply on_button_click_partial with website pre e post.
  - left. split; [done|]. by apply on_button_click_no_title.
Qed.

(** X1: a fetch returns normally exactly when the parsed feed is valid (it
    has a feed-level title and every entry has a title, a link and a
    summary); otherwise it raises KeyError, and nothing else. *)
Theorem fetch_succeeds_iff_valid parse st :
  ((RssFrame.on_button_click parse st).2 = Ok tt <->
   valid_feed (parse (feedURLEdit (self st)))) /\
  ((RssFrame.on_button_click parse st).2 = Ok tt \/
   (RssFrame.on_button_click parse st).2 = Raise KeyError).
Proof.
  destruct (on_button_click_cases parse st)
    as [[Hw Hrun]|[(website & rs & Hw & Hrs & Hrun)
                  |(website & pre & e & post & rs & Hw & Hes & Hrs & He & Hrun)]];
    rewrite Hrun; simpl.
  - split; [|by right]. split; [done|].
    intros [[w Hw'] _]. congruence.
  - split; [|by left]. split; [|done]. intros _. split; [by eexists|].
    apply Forall_forall. intros e He.
    apply list_elem_of_lookup in He as [i Hi].
    destruct (records_lookup _ _ _ _ _ Hrs Hi) as (t & l & s & Hf & _).
    apply complete_entry_fields. by exists t, l, s.
  - split; [|by right]. split; [done|].
    intros [_ Hall]. rewrite Hes in Hall.
    apply Forall_app in Hall as [_ Hall]. by apply Forall_cons in Hall as [? _].
Qed.

(** X2: whatever the feed and however the fetch ends, it leaves the URL
    field, the description pane and the browser as they were, and the frame
    keeps the same list object; only a fetch that returns normally touches
    the model, emitting [layoutChanged] once. *)
Theorem fetch_frame_condition parse st :
  feedURLEdit (self (RssFrame.on_button_click parse st).1) = feedURLEdit (self st) /\
  description (self (RssFrame.on_button_click parse st).1) = description (self st) /\
  browser (self (RssFrame.on_button_click parse st).1) = browser (self st) /\
  data (self (RssFrame.on_button_click parse st).1) = data (self st) /\
  layoutChanged (rssModel (self (RssFrame.on_button_click parse st).1)) =
    match (RssFrame.on_button_click parse st).2 with
    | Ok _ => S (layoutChanged (rssModel (self st)))
    | Raise _ => layoutChanged (rssModel (self st))
    end.
Proof.
  destruct (on_button_click_cases parse st)
    as [[Hw Hrun]|[(website & rs & Hw & Hrs & Hrun)
                  |(website & pre & e & post & rs & Hw & Hes & Hrs & He & Hrun)]];
    rewrite Hrun; simpl; rewrite ?self_extend; done.
Qed.

(** ** What the selection slots leave alone *)

Lemma getitem_list_error {A : Type} (l : list A) i e :
  getitem_list l i = Raise e -> e = IndexError.
Proof.
  unfold getitem_list.
  destruct (_ || _); [by intros [= <-]|].
  destruct (l !! _); [done|by intros [= <-]].
Qed.

Lemma on_click_outcome st :
  RssFrame.on_click st = (st, Raise IndexError) \/
  exists s, RssFrame.on_click st =
    (set_self (set_description ("<html><body>" +:+ s +:+ "</body></html>")%string) st,
     Ok tt).
Proof.
  unfold RssFrame.on_click, RssModel.summary. unfold_M.
  destruct (getitem_list (selectedIndexes (self st)) 0) as [index|e] eqn:Hsel;
    [|left; by rewrite (getitem_list_error _ _ _ Hsel)].
  destruct (getitem_list (RssModel.rows st) (row index)) as [r|e] eqn:Hr;
    [|left; by rewrite (getitem_list_error _ _ _ Hr)].
  destruct (getitem_list r 2) as [s|e] eqn:Hs;
    [|left; by rewrite (getitem_list_error _ _ _ Hs)].
  right. exists s. by rewrite percent_format_envelope.
Qed.

Lemma on_double_click_outcome st :
  RssFrame.on_double_click st = (st, Raise IndexError) \/
  exists l, RssFrame.on_double_click st =
    (set_self (set_browser (QUrl_of l)) st, Ok tt).
Proof.
  unfold RssFrame.on_double_click, RssModel.url. unfold_M.
  destruct (getitem_list (selectedIndexes (self st)) 0) as [index|e] eqn:Hsel;
    [|left; by rewrite (getitem_list_error _ _ _ Hsel)].
  destruct (getitem_list (RssModel.rows st) (row index)) as [r|e] eqn:Hr;
    [|left; by rewrite (getitem_list_error _ _ _ Hr)].
  destruct (getitem_list r 3) as [l|e] eqn:Hl;
    [|left; by rewrite (getitem_list_error _ _ _ Hl)].
  right. by exists l.
Qed.

(** X3: the two selection slots only read the article list.  Neither
    changes the store, the model or the URL field; the single-click slot
    never touches the browser and the double-click slot never touches the
    description; and a slot that raises raises IndexError and has changed
    nothing at all. *)
Theorem selection_slots_frame_condition st :
  (heap (RssFrame.on_click st).1 = heap st /\
   rssModel (self (RssFrame.on_click st).1) = rssModel (self st) /\
   data (self (RssFrame.on_click st).1) = data (self st) /\
   feedURLEdit (self (RssFrame.on_click st).1) = feedURLEdit (self st) /\
   browser (self (RssFrame.on_click st).1) = browser (self st) /\
   ((RssFrame.on_click st).2 = Ok tt \/
    RssFrame.on_click st = (st, Raise IndexError))) /\
  (heap (RssFrame.on_double_click st).1 = heap st /\
   rssModel (self (RssFrame.on_double_click st).1) = rssModel (self st) /\
   data (self (RssFrame.on_double_click st).1) = data (self st) /\
   feedURLEdit (self (RssFrame.on_double_click st).1) = feedURLEdit (self st) /\
   description (self (RssFrame.on_double_click st).1) = description (self st) /\
   ((RssFrame.on_double_click st).2 = Ok tt \/
    RssFrame.on_double_click st = (st, Raise IndexError))).
Proof.
  split.
  - destruct (on_click_outcome st) as [Hrun|[s Hrun]]; rewrite Hrun; simpl;
      repeat (split; [done|]); [by right|by left].
  - destruct (on_double_click_outcome st) as [Hrun|[l Hrun]]; rewrite Hrun; simpl;
      repeat (split; [done|]); [by right|by left].
Qed.

(** ** The article list along a run *)

Lemma step_extends parse st ev :
  exists rs,
    data (self (step parse st ev)) = data (self st) /\
    deref (step parse st ev) (data (self st)) = deref st (data (self st)) ++ rs /\
    Forall (fun r => exists u, from_feed (parse u) r) rs.
Proof.
  destruct ev; simpl.
  - exists []. by rewrite app_nil_r.
  - exists []. by rewrite app_nil_r.
  - destruct (on_button_click_cases parse st)
      as [[Hw Hrun]|[(website & rs & Hw & Hrs & Hrun)
                    |(website & pre & e & post & rs & Hw & Hes & Hrs & He & Hrun)]];
      rewrite Hrun; simpl.
    + exists []. by rewrite app_nil_r.
    + exists rs. rewrite self_extend. split; [done|].
      split; [apply deref_extend|].
      apply Forall_forall. intros r Hr.
      destruct (records_from _ _ _ _ Hrs Hr) as (e & He & Hrec).
      exists (feedURLEdit (self st)), website, e. done.
    + exists rs. rewrite self_extend. split; [done|].
      split; [apply deref_extend|].
      apply Forall_forall. intros r Hr.
      destruct (records_from _ _ _ _ Hrs Hr) as (e' & He' & Hrec).
      exists (feedURLEdit (self st)), website, e'. split; [done|].
      split; [|done]. rewrite Hes. apply elem_of_app. by left.
  - destruct (on_click_outcome st) as [Hrun|[s Hrun]]; rewrite Hrun;
      exists []; by rewrite app_nil_r.
  - destruct (on_double_click_outcome st) as [Hrun|[l Hrun]]; rewrite Hrun;
      exists []; by rewrite app_nil_r.
Qed.

Lemma steps_extend parse evs st :
  exists rs,
    data (self (foldl (step parse) st evs)) = data (self st) /\
    deref (foldl (step parse) st evs) (data (self st)) =
      deref st (data (self st)) ++ rs /\
    Forall (fun r => exists u, from_feed (parse u) r) rs.
Proof.
  revert st. induction evs as [|ev evs IH]; intros st.
  - exists []. by rewrite app_nil_r.
  - simpl. destruct (step_extends parse st ev) as (rs1 & Hd1 & Hl1 & Hp1).
    destruct (IH (step parse st ev)) as (rs2 & Hd2 & Hl2 & Hp2).
    exists (rs1 ++ rs2). rewrite Hd1 in Hd2, Hl2.
    split; [done|]. split; [|by apply Forall_app].
    by rewrite Hl2, Hl1, <- app_assoc.
Qed.

Lemma rows_run parse evs :
  RssModel.rows (run parse evs) =
  deref (run parse evs) (data (self (run parse evs))).
Proof.
  destruct (frame_inv_run parse evs) as [Hal _].
  unfold RssModel.rows. by rewrite Hal.
Qed.

(** X4: the table only grows, and only at its end.  Whatever the user does
    after a run - retyping the URL, selecting, clicking, fetching feeds
    that parse or not - the rows shown before are still shown, unchanged
    and at the same positions; a new fetch adds to the list and never
    replaces it. *)
Theorem table_only_grows parse evs evs' :
  exists rs,
    RssModel.rows (run parse (evs ++ evs')) = RssModel.rows (run parse evs) ++ rs.
Proof.
  rewrite !rows_run. unfold run at 1 2. rewrite foldl_app. fold (run parse evs).
  destruct (steps_extend parse evs' (run parse evs)) as (rs & Hd & Hl & _).
  exists rs. by rewrite Hd.
Qed.

(** X5: every row the table ever shows is the record of an entry of a feed
    the parser returned, with that feed's title as its source: the row is
    [title; feed title; summary; link] for an entry of that feed. *)
Theorem rows_come_from_feeds parse evs r :
  r ∈ RssModel.rows (run parse evs) -> exists u, from_feed (parse u) r.
Proof.
  rewrite rows_run. unfold run.
  destruct (steps_extend parse evs RssFrame.init) as (rs & Hd & Hl & Hp).
  rewrite Hd, Hl. intros Hr. rewrite Forall_forall in Hp. apply Hp.
  by apply elem_of_app in Hr as [Hr|Hr]; [apply elem_of_nil in Hr|].
Qed.

Lemma rows_come_from_feeds_witness :
  exists u : string,
    from_feed example_feed ["B"; "Site"; "sb"; "http://x/b"]%string.
Proof.
  apply (rows_come_from_feeds (fun _ => example_feed) [ButtonClick]).
  vm_compute. right. left.
Defined.

(** ** What the view can ask of a running application *)

Lemma getitem_list_within {A : Type} (l : list A) i :
  - Z.of_nat (length l) <= i < Z.of_nat (length l) ->
  exists x, getitem_list l i = Ok x /\ x ∈ l.
Proof.
  intros Hi. unfold getitem_list.
  set (j := if i <? 0 then i + Z.of_nat (length l) else i).
  assert (0 <= j < Z.of_nat (length l)) as Hj
    by (subst j; destruct (Z.ltb_spec i 0); lia).
  destruct (Z.ltb_spec j 0) as [?|_]; [lia|].
  destruct (Z.leb_spec (Z.of_nat (length l)) j) as [?|_]; [lia|]. simpl.
  destruct (lookup_lt_is_Some_2 l (Z.to_nat j)) as [x Hx]; [lia|].
  rewrite Hx. exists x. split; [done|]. apply list_elem_of_lookup. eauto.
Qed.

Lemma four_fields_shape (r : article) :
  length r = 4%nat -> exists t w s l, r = [t; w; s; l].
Proof.
  destruct r as [|t [|w [|s [|l [|x r]]]]]; try done. intros _. by exists t, w, s, l.
Qed.

Lemma run_row_shape parse evs r :
  r ∈ RssModel.rows (run parse evs) -> exists t w s l, r = [t; w; s; l].
Proof.
  rewrite rows_run. destruct (frame_inv_run parse evs) as [_ Hrows].
  intros Hr. apply four_fields_shape.
  unfold four_fields in Hrows. rewrite Forall_forall in Hrows. by apply Hrows.
Qed.

(** X6: in every state the application reaches, the queries a view makes
    for a row of the table do not raise: for a valid index whose row is
    below the row count, [summary] and [url] return the row's summary and
    link, and [data] returns the title in column 0 and the source in
    column 1 under the display role and the empty variant otherwise. *)
Theorem view_queries_never_raise parse evs index role :
  isValid index = true ->
  row index < Z.of_nat (length (RssModel.rows (run parse evs))) ->
  exists t w s l,
    RssModel.rows (run parse evs) !! Z.to_nat (row index) = Some [t; w; s; l] /\
    RssModel.summary index (run parse evs) = (run parse evs, Ok s) /\
    RssModel.url index (run parse evs) = (run parse evs, Ok l) /\
    RssModel.data index role (run parse evs) =
      (run parse evs,
       Ok (if role =? DisplayRole then
             if column index =? 0 then QVariant_of t
             else if column index =? 1 then QVariant_of w
             else QVariant_empty
           else QVariant_empty)).
Proof.
  intros Hv Hrow. pose proof Hv as Hv'. unfold isValid in Hv'.
  apply andb_true_iff in Hv' as [Hv' _]. apply andb_true_iff in Hv' as [Hr0 Hc0].
  apply Z.leb_le in Hr0, Hc0.
  destruct (lookup_lt_is_Some_2 (RssModel.rows (run parse evs))
              (Z.to_nat (row index))) as [r Hr]; [lia|].
  destruct (run_row_shape parse evs r) as (t & w & s & l & ->).
  { apply list_elem_of_lookup. eauto. }
  assert (row index = Z.of_nat (Z.to_nat (row index))) as Hnat by lia.
  exists t, w, s, l. split; [done|].
  split; [by apply summary_row with (Z.to_nat (row index)) [t; w; s; l]|].
  split; [by apply url_row with (Z.to_nat (row index)) [t; w; s; l]|].
  destruct (Z.eqb_spec role DisplayRole) as [->|Hrole].
  - destruct (Z.eqb_spec (column index) 0) as [Hc|Hc];
      [by eapply (data_cell index (Z.to_nat (row index)) 0%nat [t; w; s; l]);
         [| | |lia| |]|].
    destruct (Z.eqb_spec (column index) 1) as [Hc1|Hc1];
      [by eapply (data_cell index (Z.to_nat (row index)) 1%nat [t; w; s; l]);
         [| | |lia| |]|].
    unfold RssModel.data. rewrite Hv. cbn [negb].
    by destruct (Z.ltb_spec (column index) 2) as [?|_]; [lia|].
  - unfold RssModel.data. rewrite Hv. cbn [negb].
    apply Z.eqb_neq in Hrole. rewrite Hrole. by destruct (column index <? 2).
Qed.

Lemma view_queries_never_raise_witness :
  exists t w s l,
    RssModel.rows example_state !! 1%nat = Some [t; w; s; l] /\
    RssModel.summary (mkIndex 1 1 true) example_state = (example_state, Ok s) /\
    RssModel.url (mkIndex 1 1 true) example_state = (example_state, Ok l) /\
    RssModel.data (mkIndex 1 1 true) DisplayRole example_state =
      (example_state, Ok (QVariant_of w)).
Proof.
  apply (view_queries_never_raise (fun _ => example_feed)
           [ButtonClick; Select [mkIndex 1 0 true]] (mkIndex 1 1 true) DisplayRole).
  - reflexivity.
  - vm_compute. reflexivity.
Defined.

(** X7: in every state the application reaches, the column count is 0
    while the table is empty and 2 as soon as it has a row, and the row
    count is the length of the frame's article list; neither query raises. *)
Theorem shape_of_running_table parse evs parent :
  RssModel.columnCount parent (run parse evs) =
    (run parse evs,
     Ok (match RssModel.rows (run parse evs) with [] => 0 | _ :: _ => 2 end)) /\
  RssModel.rowCount parent (run parse evs) =
    (run parse evs,
     Ok (Z.of_nat (length (deref (run parse evs) (data (self (run parse evs))))))).
Proof.
  split; [|by rewrite rowCount_eq, rows_run].
  pose proof (run_row_shape parse evs) as Hshape.
  unfold RssModel.columnCount. unfold_M.
  destruct (RssModel.rows (run parse evs)) as [|r rs]; [done|].
  destruct (Hshape r) as (t & w & s & l & ->); [by left|].
  change (getitem_list ([t; w; s; l] :: rs) 0) with (Ok [t; w; s; l]).
  by destruct (Z.ltb_spec 0 (Z.of_nat (length ([t; w; s; l] :: rs))))
    as [_|Hle]; [|simpl in Hle; lia].
Qed.

(** X8: in every state the application reaches, the single-click slot
    returns normally exactly when something is selected and the row of the
    first selected index lies within -len .. len-1, len being the row
    count; and so does the double-click slot. *)
Theorem selection_slots_succeed_iff parse evs :
  ((RssFrame.on_click (run parse evs)).2 = Ok tt <->
   exists index rest,
     selectedIndexes (self (run parse evs)) = index :: rest /\
     - Z.of_nat (length (RssModel.rows (run parse evs))) <= row index
       < Z.of_nat (length (RssModel.rows (run parse evs)))) /\
  ((RssFrame.on_double_click (run parse evs)).2 = Ok tt <->
   exists index rest,
     selectedIndexes (self (run parse evs)) = index :: rest /\
     - Z.of_nat (length (RssModel.rows (run parse evs))) <= row index
       < Z.of_nat (length (RssModel.rows (run parse evs)))).
Proof.
  pose proof (run_row_shape parse evs) as Hshape.
  set (st := run parse evs) in *.
  unfold RssFrame.on_click, RssFrame.on_double_click,
    RssModel.summary, RssModel.url. unfold_M.
  destruct (selectedIndexes (self st)) as [|index rest].
  { split; (split; [done|by intros (? & ? & ? & _)]). }
  change (getitem_list (index :: rest) 0) with (Ok index). cbv beta iota.
  destruct (Z.le_gt_cases (- Z.of_nat (length (RssModel.rows st))) (row index))
    as [Hlo|Hlo];
    [destruct (Z.lt_ge_cases (row index) (Z.of_nat (length (RssModel.rows st))))
       as [Hhi|Hhi]|].
  - destruct (getitem_list_within (RssModel.rows st) (row index))
      as (r & Hr & Hin); [lia|].
    destruct (Hshape r Hin) as (t & w & s & l & ->). rewrite Hr. simpl.
    split; (split; [intros _; by exists index, rest|done]).
  - rewrite (getitem_list_beyond (RssModel.rows st) (row index)) by lia.
    split; (split; [done|intros (? & ? & [= <- _] & ?); lia]).
  - rewrite (getitem_list_beyond (RssModel.rows st) (row index)) by lia.
    split; (split; [done|intros (? & ? & [= <- _] & ?); lia]).
Qed.

(** ** Headers and cells at the edges *)

(** X9: [headerData] in full.  Under the display role a horizontal header
    is "Title" for sections 0 and -2 and "Website" for sections 1 and -1
    (a negative section counts from the end of the two labels), and every
    other section raises IndexError; a vertical header, any other
    orientation and any other role give no header, whatever the section.
    The model is never changed. *)
Theorem headerData_cases section orientation role st :
  RssModel.headerData section orientation role st =
  (st,
   if (role =? DisplayRole) && (orientation =? Horizontal) then
     if (section =? 0) || (section =? -2) then Ok (Some "Title"%string)
     else if (section =? 1) || (section =? -1) then Ok (Some "Website"%string)
     else Raise IndexError
   else Ok None).
Proof.
  unfold RssModel.headerData.
  destruct (role =? DisplayRole); [|done].
  destruct (orientation =? Horizontal); [|by destruct (orientation =? Vertical)].
  unfold_M. cbn [andb].
  destruct (Z.eqb_spec section 0) as [->|?]; [done|].
  destruct (Z.eqb_spec section (-2)) as [->|?]; [done|].
  destruct (Z.eqb_spec section 1) as [->|?]; [done|].
  destruct (Z.eqb_spec section (-1)) as [->|?]; [done|].
  rewrite getitem_list_beyond; [done|]. simpl. lia.
Qed.

(** X10: [data] at the edges.  An invalid index gets the empty variant,
    whatever its row and whatever the role, even on an empty table; a
    valid index of column 0 or 1 whose row is not below the row count
    raises IndexError under the display role, and the model is unchanged. *)
Theorem data_edge_cases st index role :
  (isValid index = false ->
   RssModel.data index role st = (st, Ok QVariant_empty)) /\
  (isValid index = true ->
   column index < 2 ->
   Z.of_nat (length (RssModel.rows st)) <= row index ->
   RssModel.data index DisplayRole st = (st, Raise IndexError)).
Proof.
  unfold RssModel.data. split.
  - by intros ->.
  - intros -> Hcol Hrow. cbn [negb].
    destruct (Z.ltb_spec (column index) 2) as [_|?]; [|lia].
    unfold_M. change (DisplayRole =? DisplayRole) with true. cbv beta iota.
    rewrite (getitem_list_beyond (RssModel.rows st) (row index)); [done|by left].
Qed.

Lemma data_edge_cases_witness :
  RssModel.data invalid_index DisplayRole RssFrame.init =
    (RssFrame.init, Ok QVariant_empty) /\
  RssModel.data (mkIndex 2 0 true) DisplayRole example_state =
    (example_state, Raise IndexError).
Proof.
  split.
  - apply (proj1 (data_edge_cases RssFrame.init invalid_index DisplayRole)).
    reflexivity.
  - apply (proj2 (data_edge_cases example_state (mkIndex 2 0 true) DisplayRole)).
    + reflexivity.
    + simpl. lia.
    + vm_compute. discriminate.
Defined.

(** ** Fetches one after another *)

Lemma record_of_functional website e r1 r2 :
  record_of website e r1 -> record_of website e r2 -> r1 = r2.
Proof.
  intros (t1 & l1 & s1 & (Ht1 & Hl1 & Hs1) & ->)
         (t2 & l2 & s2 & (Ht2 & Hl2 & Hs2) & ->).
  congruence.
Qed.

Lemma records_functional website es rs1 rs2 :
  Forall2 (record_of website) es rs1 -> Forall2 (record_of website) es rs2 ->
  rs1 = rs2.
Proof.
  intros H1. revert rs2. induction H1 as [|e r1 es rs1 Hr1 _ IH]; intros rs2 H2.
  - by apply Forall2_nil_inv_l in H2.
  - apply Forall2_cons_inv_l in H2 as (r2 & rs2' & Hr2 & H2 & ->).
    f_equal; [by eapply record_of_functional|by apply IH].
Qed.

(** X11: a fetch that fails half-way is already visible through the model.
    When the frame and the model share the list, the feed has its title
    and entry k is the first incomplete one, the fetch raises KeyError and
    the model's row count has grown by k although [layoutChanged] was not
    emitted. *)
Theorem partial_fetch_row_count parse st parent website pre e post :
  aliased st ->
  feed (parse (feedURLEdit (self st))) !! "title"%string = Some website ->
  entries (parse (feedURLEdit (self st))) = pre ++ e :: post ->
  Forall complete_entry pre ->
  ~ complete_entry e ->
  (RssFrame.on_button_click parse st).2 = Raise KeyError /\
  (RssModel.rowCount parent (RssFrame.on_button_click parse st).1).2 =
    Ok (Z.of_nat (length (RssModel.rows st)) + Z.of_nat (length pre)) /\
  layoutChanged (rssModel (self (RssFrame.on_button_click parse st).1)) =
    layoutChanged (rssModel (self st)).
Proof.
  intros Hal Hw Hes Hpre He.
  destruct (complete_entries_records website _ Hpre) as [rs Hrs].
  rewrite (on_button_click_partial parse website pre e post rs st Hw Hes Hrs He).
  simpl. rewrite self_extend. split; [done|]. split; [|done].
  unfold RssModel.rows. rewrite self_extend, Hal, deref_extend, length_app.
  rewrite (Forall2_length _ _ _ Hrs). f_equal. lia.
Qed.

Lemma partial_fetch_row_count_witness :
  (RssFrame.on_button_click (fun _ => broken_feed) RssFrame.init).2 =
    Raise KeyError /\
  (RssModel.rowCount invalid_index
     (RssFrame.on_button_click (fun _ => broken_feed) RssFrame.init).1).2 =
    Ok (0 + 1) /\
  layoutChanged
    (rssModel (self (RssFrame.on_button_click (fun _ => broken_feed) RssFrame.init).1)) =
    0%nat.
Proof.
  apply (partial_fetch_row_count (fun _ => broken_feed) RssFrame.init
           invalid_index "Site"%string
           [ {[ "title" := "A"; "link" := "http://x/a"; "summary" := "sa" ]} ]%string
           {[ "title" := "B"; "link" := "http://x/b" ]}%string
           [ {[ "title" := "C"; "link" := "http://x/c"; "summary" := "sc" ]} ]%string).
  - reflexivity.
  - reflexivity.
  - reflexivity.
  - repeat constructor; by eexists.
  - intros (_ & _ & [s Hs]). discriminate Hs.
Defined.

(** X12: fetches accumulate.  From a state where the frame and the model
    share the list, a fetch of a valid feed, a new URL typed in, and a
    second fetch of a valid feed leave the table with the old rows, then
    the records of the first feed, then those of the second, and
    [layoutChanged] emitted twice; when the URL typed in is the one already
    there, each article of the feed is listed twice. *)
Theorem fetches_accumulate parse st t :
  aliased st ->
  valid_feed (parse (feedURLEdit (self st))) ->
  valid_feed (parse t) ->
  exists w1 w2 rs1 rs2,
    feed (parse (feedURLEdit (self st))) !! "title"%string = Some w1 /\
    feed (parse t) !! "title"%string = Some w2 /\
    Forall2 (record_of w1) (entries (parse (feedURLEdit (self st)))) rs1 /\
    Forall2 (record_of w2) (entries (parse t)) rs2 /\
    RssModel.rows (foldl (step parse) st [ButtonClick; Edit t; ButtonClick]) =
      RssModel.rows st ++ rs1 ++ rs2 /\
    layoutChanged
      (rssModel (self (foldl (step parse) st [ButtonClick; Edit t; ButtonClick]))) =
      S (S (layoutChanged (rssModel (self st)))) /\
    (t = feedURLEdit (self st) -> rs1 = rs2).
Proof.
  intros Hal [[w1 Hw1] Hes1] [[w2 Hw2] Hes2].
  destruct (complete_entries_records w1 _ Hes1) as [rs1 Hrs1].
  destruct (complete_entries_records w2 _ Hes2) as [rs2 Hrs2].
  exists w1, w2, rs1, rs2. repeat (split; [done|]).
  simpl. rewrite (on_button_click_ok parse w1 rs1 st Hw1 Hrs1). simpl.
  set (st1 := set_self (set_text t) (after_fetch rs1 st)).
  assert (feedURLEdit (self st1) = t) as Ht by done.
  rewrite (on_button_click_ok parse w2 rs2 st1); [|by rewrite Ht..].
  simpl. split; [|split].
  - rewrite rows_after_fetch.
    change (deref st1 (data (self st1))) with (RssModel.rows (after_fetch rs1 st)).
    rewrite rows_after_fetch. unfold RssModel.rows. by rewrite Hal, <- app_assoc.
  - rewrite self_extend. subst st1. unfold after_fetch, set_self. simpl.
    by rewrite self_extend.
  - intros ->. assert (w1 = w2) as -> by congruence.
    by eapply records_functional.
Qed.

Lemma fetches_accumulate_witness :
  exists rs,
    RssModel.rows (foldl (step (fun _ => example_feed)) RssFrame.init
                     [ButtonClick; Edit EmptyString; ButtonClick]) =
      RssModel.rows RssFrame.init ++ rs ++ rs /\
    length rs = 2%nat.
Proof.
  destruct (fetches_accumulate (fun _ => example_feed) RssFrame.init EmptyString
              eq_refl example_feed_valid example_feed_valid)
    as (w1 & w2 & rs1 & rs2 & _ & _ & Hrs1 & _ & Hrows & _ & Hsame).
  exists rs1. rewrite <- (Hsame eq_refl) in Hrows. split; [exact Hrows|].
  symmetry. exact (Forall2_length _ _ _ Hrs1).
Defined.

(** ** Worked instances *)

Lemma fetch_succeeds_iff_valid_witness :
  (RssFrame.on_button_click (fun _ => example_feed) RssFrame.init).2 = Ok tt /\
  ~ valid_feed broken_feed.
Proof.
  split.
  - apply (proj1 (fetch_succeeds_iff_valid (fun _ => example_feed) RssFrame.init)).
    exact example_feed_valid.
  - intros Hvalid.
    apply (proj1 (fetch_succeeds_iff_valid (fun _ => broken_feed) RssFrame.init))
      in Hvalid.
    vm_compute in Hvalid. discriminate Hvalid.
Defined.

Lemma selection_slots_succeed_iff_witness :
  (RssFrame.on_click example_state).2 = Ok tt /\
  (RssFrame.on_double_click example_state).2 = Ok tt.
Proof.
  destruct (selection_slots_succeed_iff (fun _ => example_feed)
              [ButtonClick; Select [mkIndex 1 0 true]]) as [Hclick Hdouble].
  split.
  - apply Hclick. exists (mkIndex 1 0 true), []. split; [reflexivity|].
    vm_compute. split; [discriminate|reflexivity].
  - apply Hdouble. exists (mkIndex 1 0 true), []. split; [reflexivity|].
    vm_compute. split; [discriminate|reflexivity].
Defined.
